(** * A tagged, direct-mapped TLB: [src/emu/riscv-tlb.h]

    Shallow embedding of [riscv::tagged_tlb_entry] and [riscv::tagged_tlb].

    - The address type [UX] is an unsigned machine word; a value of type
      [UX] is a [Z] in the range [0 .. 2^xlen - 1] ([is_UX]).
    - The packed members [ppn : ppn_bits], [asid : asid_bits],
      [vpn : vpn_bits], [pteb : pte_bits] keep the low bits of what is
      assigned to them ([bitfield]).
    - The array member [tlb[size]] is a [list] of entries; the member
      functions run in a small state-and-failure monad over that list,
      where an access outside the array has no result. *)

From stdpp Require Import base numbers option list gmap.

Local Open Scope Z_scope.

(** ** Template and namespace parameters

    [PARAM] gathers what the header takes from elsewhere: the template
    argument [PARAM] ([UX], [asid_bits], [ppn_bits]), the namespace
    constant [page_shift], the width of the typedef [pdid_t] and the
    template argument [tlb_size]. *)

Class PARAM := {
  xlen : Z;        (* sizeof(UX) << 3 *)
  page_shift : Z;  (* riscv::page_shift *)
  asid_bits : Z;   (* PARAM::asid_bits *)
  ppn_bits : Z;    (* PARAM::ppn_bits *)
  pdid_bits : Z;   (* width of the unsigned type pdid_t *)
  tlb_size : Z     (* template argument of tagged_tlb *)
}.

(** Modelled from the spec: [ispow2] is declared outside this header; the
    spec asks that the capacity is a power of two. *)
Definition ispow2 (n : Z) : bool := (0 <? n) && (n =? 2 ^ Z.log2 n).

(** Modelled from the spec: [ctz_pow2] is declared outside this header; the
    spec gives [index_shift = log2(capacity)]. *)
Definition ctz_pow2 (n : Z) : Z := Z.log2 n.

(** Assignment to an unsigned bit-field of [bits] bits. *)
Definition bitfield (bits v : Z) : Z := Z.land v (Z.ones bits).

(** Conversion to an unsigned integer type of [bits] bits. *)
Definition convert (bits v : Z) : Z := v mod 2 ^ bits.

(** ** The entry record, the array and the monad *)

Record tagged_tlb_entry := Entry {
  ppn : Z;
  asid : Z;
  vpn : Z;
  pteb : Z;
  pdid : Z;
  pma : Z
}.

(** The array [tlb] and the monad of the member functions. *)
Abbreviation tlb_state := (list tagged_tlb_entry).

Definition M (A : Type) : Type := tlb_state -> option (A * tlb_state).

Definition ret {A} (a : A) : M A := fun t => Some (a, t).

Definition bind {A B} (m : M A) (k : A -> M B) : M B :=
  fun t => match m t with
           | Some (a, t') => k a t'
           | None => None
           end.

(** [tlb[i]] read. *)
Definition load (i : nat) : M tagged_tlb_entry :=
  fun t => match t !! i with
           | Some e => Some (e, t)
           | None => None
           end.

(** [tlb[i] = e]. *)
Definition store (i : nat) (e : tagged_tlb_entry) : M unit :=
  fun t => match t !! i with
           | Some _ => Some (tt, <[i := e]> t)
           | None => None
           end.

(** [for (size_t i = from; i < from + n; i++) body(i)] *)
Fixpoint for_range (n : nat) (from : nat) (body : nat -> M unit) : M unit :=
  match n with
  | O => ret tt
  | S n' => bind (body from) (fun _ => for_range n' (S from) body)
  end.

Notation "'let*' x ':=' m 'in' k" := (bind m (fun x => k))
  (at level 10, x name, m at level 100, k at level 200).

Section tlb.
Context {P : PARAM}.

(** A value of the address type. *)
Definition is_UX (v : Z) : Prop := 0 <= v < 2 ^ xlen.

(** ** tagged_tlb_entry *)

Definition vpn_bits : Z := xlen - page_shift.
Definition pte_bits : Z := page_shift.
Definition ppn_limit : Z := Z.shiftl 1 ppn_bits - 1.
Definition asid_limit : Z := Z.shiftl 1 asid_bits - 1.
Definition vpn_limit : Z := Z.shiftl 1 vpn_bits - 1.

(** [tagged_tlb_entry()] *)
Definition entry_default : tagged_tlb_entry :=
  {| ppn := bitfield ppn_bits ppn_limit;
     asid := bitfield asid_bits asid_limit;
     vpn := bitfield vpn_bits vpn_limit;
     pteb := bitfield pte_bits 0;
     pdid := convert pdid_bits 0;
     pma := 0 |}.

(** [tagged_tlb_entry(UX pdid, UX asid, UX vpn, UX pteb, UX ppn)] *)
Definition entry_of (pdid' asid' vpn' pteb' ppn' : Z) : tagged_tlb_entry :=
  {| ppn := bitfield ppn_bits ppn';
     asid := bitfield asid_bits asid';
     vpn := bitfield vpn_bits vpn';
     pteb := bitfield pte_bits pteb';
     pdid := convert pdid_bits pdid';
     pma := 0 |}.

(** The sentinel as the spec describes it: all ones in the three tagged
    bit-fields, zero elsewhere. *)
Definition sentinel : tagged_tlb_entry :=
  {| ppn := 2 ^ ppn_bits - 1;
     asid := 2 ^ asid_bits - 1;
     vpn := 2 ^ vpn_bits - 1;
     pteb := 0;
     pdid := 0;
     pma := 0 |}.

(** ** tagged_tlb *)

Definition size : Z := tlb_size.
Definition shift : Z := ctz_pow2 size.
Definition mask : Z := Z.shiftl 1 shift - 1.

(** The static assertions of the two templates, and the widths a bit-field
    declaration needs. *)
Record wf_param : Prop := {
  wf_page_shift : 0 < page_shift < xlen;
  wf_asid_bits : 0 < asid_bits;
  wf_ppn_bits : 0 < ppn_bits;
  wf_pdid_bits : 0 < pdid_bits;
  wf_sum : asid_bits + ppn_bits = 32 \/ asid_bits + ppn_bits = 64 \/
           asid_bits + ppn_bits = 128;
  wf_size : ispow2 tlb_size = true
}.


(** [void flush()] *)
Definition flush : M unit :=
  for_range (Z.to_nat size) 0%nat (fun i => store i entry_default).

(** [void flush(UX asid)] *)
Definition flush_asid (asid' : Z) : M unit :=
  for_range (Z.to_nat size) 0%nat (fun i =>
    let* e := load i in
    if negb (asid e =? asid') then ret tt
    else store i entry_default).

(** [tlb_entry_t* lookup(UX pdid, UX asid, UX va)]: the result is the
    element [tlb + i] points to, as its index, or [None] for [nullptr]. *)
Definition lookup (pdid' asid' va : Z) : M (option nat) :=
  let vpn' := Z.shiftr va page_shift in
  let i := Z.to_nat (Z.land vpn' mask) in
  let* e := load i in
  ret (if (pdid e =? pdid') && (asid e =? asid') && (vpn e =? vpn')
       then Some i else None).

(** [void insert(UX pdid, UX asid, UX va, UX pteb, UX ppn)] *)
Definition insert (pdid' asid' va pteb' ppn' : Z) : M unit :=
  let vpn' := Z.shiftr va page_shift in
  let i := Z.to_nat (Z.land vpn' mask) in
  store i (entry_of pdid' asid' vpn' pteb' ppn').

(** [tagged_tlb() { flush(); }], run on the default-constructed array. *)
Definition tagged_tlb : option tlb_state :=
  snd <$> flush (replicate (Z.to_nat size) entry_default).

(** The slot a virtual address is looked up in. *)
Definition index_of (va : Z) : nat :=
  Z.to_nat (Z.land (Z.shiftr va page_shift) mask).

(** The array has [size] elements. *)
Definition wf_state (t : tlb_state) : Prop := length t = Z.to_nat size.

(** The comparison of [lookup] on one element. *)
Definition matches (e : tagged_tlb_entry) (pdid' asid' va : Z) : bool :=
  (pdid e =? pdid') && (asid e =? asid') && (vpn e =? Z.shiftr va page_shift).

(** What one iteration of [flush(asid)] does to the element it visits. *)
Definition reset_if_asid (asid' : Z) (e : tagged_tlb_entry) : tagged_tlb_entry :=
  if asid e =? asid' then entry_default else e.

(** The key made of the tags of a default-constructed entry. *)
Definition sentinel_key (pdid' asid' va : Z) : bool :=
  (pdid' =? 0) && (asid' =? asid_limit) &&
  (Z.shiftr va page_shift =? vpn_limit).

(** Every entry other than the sentinel sits in the slot its own tag
    selects. *)
Definition placed (t : tlb_state) : Prop :=
  forall i e, t !! i = Some e -> e <> entry_default ->
    Z.land (vpn e) mask = Z.of_nat i.

(** Calls of the member functions, with arguments of type [UX]. *)
Inductive call :=
| call_flush
| call_flush_asid (asid' : Z)
| call_lookup (pdid' asid' va : Z)
| call_insert (pdid' asid' va pteb' ppn' : Z).

Definition call_typed (c : call) : Prop :=
  match c with
  | call_flush => True
  | call_flush_asid a => is_UX a
  | call_lookup p a va => is_UX p /\ is_UX a /\ is_UX va
  | call_insert p a va b n =>
      is_UX p /\ is_UX a /\ is_UX va /\ is_UX b /\ is_UX n
  end.

Definition run_call (c : call) : M unit :=
  match c with
  | call_flush => flush
  | call_flush_asid a => flush_asid a
  | call_lookup p a va => let* _ := lookup p a va in ret tt
  | call_insert p a va b n => insert p a va b n
  end.

(** The states of the array after construction and any number of calls. *)
Inductive reachable : tlb_state -> Prop :=
| reachable_new t : tagged_tlb = Some t -> reachable t
| reachable_call t c t' :
    reachable t -> call_typed c -> run_call c t = Some (tt, t') ->
    reachable t'.

End tlb.

(** Two sample instances that satisfy the static assertions, one with a
    32-bit and one with a 64-bit [UX], both with 4 KiB pages and a 32-bit
    [pdid_t]; [n] is the number of slots.  The structs [param_rv32] and
    [param_rv64] that the header instantiates the templates with are
    declared elsewhere. *)
Definition rv32_tlb (n : Z) : PARAM :=
  {| xlen := 32; page_shift := 12; asid_bits := 10; ppn_bits := 22;
     pdid_bits := 32; tlb_size := n |}.

Definition rv64_tlb (n : Z) : PARAM :=
  {| xlen := 64; page_shift := 12; asid_bits := 26; ppn_bits := 38;
     pdid_bits := 32; tlb_size := n |}.

(** The instances the examples below run on: four slots. *)
Definition rv32_tlb4 : PARAM := rv32_tlb 4.
Definition rv64_tlb4 : PARAM := rv64_tlb 4.

(** ** Sequences of calls, stored fields and a reference map *)

Section traces.
Context {P : PARAM}.

(** Every packed member is within the range of its width, [pdid] within
    that of [pdid_t], and [pma] is unset. *)
Definition entry_in_range (e : tagged_tlb_entry) : Prop :=
  0 <= ppn e < 2 ^ ppn_bits /\ 0 <= asid e < 2 ^ asid_bits /\
  0 <= vpn e < 2 ^ vpn_bits /\ 0 <= pteb e < 2 ^ pte_bits /\
  0 <= pdid e < 2 ^ pdid_bits /\ pma e = 0.

(** Calls run one after the other on the same array. *)
Fixpoint run_calls (cs : list call) : M unit :=
  match cs with
  | [] => ret tt
  | c :: cs' => bind (run_call c) (fun _ => run_calls cs')
  end.

(** The tags an [insert] stores and the payload it stores under them. *)
Definition stored_key (pdid' asid' va : Z) : Z * Z * Z :=
  (convert pdid_bits pdid', bitfield asid_bits asid', Z.shiftr va page_shift).

Definition stored_payload (pteb' ppn' : Z) : Z * Z :=
  (bitfield pte_bits pteb', bitfield ppn_bits ppn').

(** A reference map without capacity: the payload of the last [insert]
    under each stored tag [(pdid, asid, vpn)], forgotten by [flush()] and,
    for the tags of one address space, by [flush(asid)]. *)
Definition ref_call (c : call) (m : gmap (Z * Z * Z) (Z * Z)) :
    gmap (Z * Z * Z) (Z * Z) :=
  match c with
  | call_flush => ∅
  | call_flush_asid a => filter (fun kv => kv.1.1.2 <> a) m
  | call_lookup _ _ _ => m
  | call_insert p a va b n => <[stored_key p a va := stored_payload b n]> m
  end.

Definition ref_calls (cs : list call) : gmap (Z * Z * Z) (Z * Z) :=
  foldl (fun m c => ref_call c m) ∅ cs.

(** Every entry other than the sentinel is what the reference map holds
    under the entry's tags. *)
Definition coherent (t : tlb_state) (m : gmap (Z * Z * Z) (Z * Z)) : Prop :=
  forall i e, t !! i = Some e -> e <> entry_default ->
    m !! (pdid e, asid e, vpn e) = Some (pteb e, ppn e).

End traces.

(** ** Arithmetic of the packed fields and of the index *)

Lemma bitfield_mod bits v : 0 <= bits -> bitfield bits v = v mod 2 ^ bits.
Proof. intros Hb. unfold bitfield. by rewrite Z.land_ones. Qed.

Lemma bitfield_fits bits v :
  0 <= bits -> 0 <= v < 2 ^ bits -> bitfield bits v = v.
Proof.
  intros Hb Hv. rewrite bitfield_mod by done. by apply Z.mod_small.
Qed.

Lemma bitfield_range bits v : 0 <= bits -> 0 <= bitfield bits v < 2 ^ bits.
Proof.
  intros Hb. rewrite bitfield_mod by done.
  apply Z.mod_pos_bound. by apply Z.pow_pos_nonneg.
Qed.

Lemma limit_pow2 bits : 0 <= bits -> Z.shiftl 1 bits - 1 = 2 ^ bits - 1.
Proof. intros Hb. rewrite Z.shiftl_1_l. done. Qed.

Lemma bitfield_limit bits :
  0 <= bits -> bitfield bits (Z.shiftl 1 bits - 1) = 2 ^ bits - 1.
Proof.
  intros Hb. rewrite limit_pow2 by done.
  apply bitfield_fits; [done|].
  assert (0 < 2 ^ bits) by (by apply Z.pow_pos_nonneg). lia.
Qed.

Lemma ispow2_spec n : ispow2 n = true -> 0 < n /\ n = 2 ^ Z.log2 n.
Proof.
  unfold ispow2. intros H. apply andb_prop in H as [H1 H2].
  split; [by apply Z.ltb_lt | by apply Z.eqb_eq].
Qed.

Section facts.
Context {P : PARAM}.
Hypothesis WF : wf_param.

Lemma vpn_bits_pos : 0 < vpn_bits.
Proof. unfold vpn_bits. destruct WF. lia. Qed.

Lemma entry_default_sentinel : entry_default = sentinel.
Proof.
  pose proof vpn_bits_pos. destruct WF.
  unfold entry_default, sentinel, ppn_limit, asid_limit, vpn_limit, pte_bits.
  rewrite !bitfield_limit by lia.
  rewrite bitfield_fits.
  - unfold convert. by rewrite Z.mod_0_l by (apply Z.pow_nonzero; lia).
  - lia.
  - split; [done|]. apply Z.pow_pos_nonneg; lia.
Qed.

Lemma shift_nonneg : 0 <= shift.
Proof. apply Z.log2_nonneg. Qed.

Lemma size_pow2 : size = 2 ^ shift.
Proof. destruct WF. by apply ispow2_spec in wf_size0 as [_ ?]. Qed.

Lemma size_pos : 0 < size.
Proof. destruct WF. by apply ispow2_spec in wf_size0 as [? _]. Qed.

Lemma mask_ones : mask = Z.ones shift.
Proof. unfold mask. by rewrite Z.ones_equiv, Z.shiftl_1_l. Qed.

Lemma mask_size : mask = size - 1.
Proof. unfold mask. rewrite Z.shiftl_1_l, size_pow2. done. Qed.

Lemma land_mask_range v : 0 <= Z.land v mask < size.
Proof.
  rewrite mask_ones, Z.land_ones by apply shift_nonneg.
  rewrite size_pow2. apply Z.mod_pos_bound.
  apply Z.pow_pos_nonneg; [done | apply shift_nonneg].
Qed.

Lemma index_of_Z va :
  Z.of_nat (index_of va) = Z.land (Z.shiftr va page_shift) mask.
Proof. unfold index_of. pose proof (land_mask_range (Z.shiftr va page_shift)). lia. Qed.

Lemma index_of_lt va : (index_of va < Z.to_nat size)%nat.
Proof.
  pose proof (index_of_Z va). pose proof (land_mask_range (Z.shiftr va page_shift)).
  lia.
Qed.

Lemma vpn_fits va :
  is_UX va -> 0 <= Z.shiftr va page_shift < 2 ^ vpn_bits.
Proof.
  unfold is_UX, vpn_bits. intros [H0 H1]. destruct WF.
  rewrite Z.shiftr_div_pow2 by lia.
  assert (0 < 2 ^ page_shift) by (apply Z.pow_pos_nonneg; lia).
  split; [by apply Z.div_pos|].
  apply Z.div_lt_upper_bound; [done|].
  rewrite <- Z.pow_add_r by lia.
  by replace (page_shift + (xlen - page_shift)) with xlen by lia.
Qed.

Lemma vpn_stored va :
  is_UX va ->
  bitfield vpn_bits (Z.shiftr va page_shift) = Z.shiftr va page_shift.
Proof.
  intros H. apply bitfield_fits; [pose proof vpn_bits_pos; lia | by apply vpn_fits].
Qed.

End facts.

(** ** The member functions as functions on the array *)

Section monad_facts.
Context {P : PARAM}.

Lemma load_eq i e (t : tlb_state) : t !! i = Some e -> load i t = Some (e, t).
Proof. intros H. unfold load. by rewrite H. Qed.

Lemma store_eq i e e0 (t : tlb_state) :
  t !! i = Some e0 -> store i e t = Some (tt, <[i := e]> t).
Proof. intros H. unfold store. by rewrite H. Qed.

(** A loop whose body rewrites slot [i] from its own content alone maps
    that rewriting over the slots it visits. *)
Lemma for_range_pointwise (f : tagged_tlb_entry -> tagged_tlb_entry)
    (body : nat -> M unit) :
  (forall i e (t : tlb_state),
      t !! i = Some e -> body i t = Some (tt, <[i := f e]> t)) ->
  forall n from (t : tlb_state),
    (from + n = length t)%nat ->
    for_range n from body t = Some (tt, take from t ++ (f <$> drop from t)).
Proof.
  intros Hbody. induction n as [|n IH]; intros from t Hlen; simpl.
  - unfold ret. rewrite drop_ge by lia. rewrite take_ge by lia.
    by rewrite app_nil_r.
  - destruct (lookup_lt_is_Some_2 t from) as [e He]; [lia|].
    unfold bind. rewrite (Hbody _ _ _ He).
    rewrite IH by (rewrite length_insert; lia).
    f_equal. f_equal.
    rewrite (drop_S t e from He), fmap_cons.
    rewrite drop_insert_lt by lia.
    rewrite take_S_r with (x := f e).
    + rewrite take_insert_ge by lia. by rewrite <- app_assoc.
    + apply list_lookup_insert_eq. lia.
Qed.

End monad_facts.

Section op_facts.
Context {P : PARAM}.
Hypothesis WF : wf_param.

Lemma flush_eq t :
  wf_state t -> flush t = Some (tt, replicate (Z.to_nat size) entry_default).
Proof.
  intros Ht. unfold flush.
  rewrite (for_range_pointwise (fun _ => entry_default)).
  - rewrite take_0, drop_0. simpl.
    rewrite (const_fmap _ t entry_default) by done.
    by rewrite Ht.
  - intros i e t' He. by apply store_eq with e.
  - rewrite Ht. lia.
Qed.

Lemma flush_asid_eq asid' t :
  wf_state t -> flush_asid asid' t = Some (tt, reset_if_asid asid' <$> t).
Proof.
  intros Ht. unfold flush_asid.
  rewrite (for_range_pointwise (reset_if_asid asid')).
  - by rewrite take_0, drop_0.
  - intros i e t' He. unfold bind. rewrite (load_eq _ _ _ He).
    unfold reset_if_asid. destruct (asid e =? asid'); simpl.
    + by apply store_eq with e.
    + unfold ret. by rewrite list_insert_id.
  - rewrite Ht. lia.
Qed.

Lemma wf_state_lookup t va :
  wf_state t -> exists e, t !! index_of va = Some e.
Proof.
  intros Ht. apply lookup_lt_is_Some_2. rewrite Ht. by apply index_of_lt.
Qed.

Lemma lookup_eq pdid' asid' va t e :
  t !! index_of va = Some e ->
  lookup pdid' asid' va t =
    Some (if matches e pdid' asid' va then Some (index_of va) else None, t).
Proof.
  intros He. unfold lookup, bind. fold (index_of va).
  by rewrite (load_eq _ _ _ He).
Qed.

Lemma insert_eq pdid' asid' va pteb' ppn' t :
  wf_state t ->
  insert pdid' asid' va pteb' ppn' t =
    Some (tt, <[index_of va :=
                 entry_of pdid' asid' (Z.shiftr va page_shift) pteb' ppn']> t).
Proof.
  intros Ht. destruct (wf_state_lookup t va Ht) as [e He].
  unfold insert. fold (index_of va). by apply store_eq with e.
Qed.

Lemma wf_state_insert i e t : wf_state t -> wf_state (<[i := e]> t).
Proof. unfold wf_state. by rewrite length_insert. Qed.

Lemma wf_state_replicate e : wf_state (replicate (Z.to_nat size) e).
Proof. unfold wf_state. by rewrite length_replicate. Qed.

Lemma wf_state_fmap f t : wf_state t -> wf_state (f <$> t).
Proof. unfold wf_state. by rewrite length_fmap. Qed.

Lemma tagged_tlb_eq :
  tagged_tlb = Some (replicate (Z.to_nat size) entry_default).
Proof.
  unfold tagged_tlb. rewrite flush_eq; [done | apply wf_state_replicate].
Qed.

Lemma limits_pow2 :
  asid_limit = 2 ^ asid_bits - 1 /\ vpn_limit = 2 ^ vpn_bits - 1 /\
  ppn_limit = 2 ^ ppn_bits - 1.
Proof.
  pose proof vpn_bits_pos WF. destruct WF.
  unfold asid_limit, vpn_limit, ppn_limit. by rewrite !limit_pow2 by lia.
Qed.

(** A default-constructed entry answers exactly to [sentinel_key]. *)
Lemma matches_default pdid' asid' va :
  matches entry_default pdid' asid' va = sentinel_key pdid' asid' va.
Proof.
  rewrite (entry_default_sentinel WF).
  destruct limits_pow2 as (Ha & Hv & _).
  unfold matches, sentinel_key, sentinel. cbn [pdid asid vpn].
  rewrite Ha, Hv.
  by rewrite (Z.eqb_sym 0 pdid'), (Z.eqb_sym (2 ^ asid_bits - 1) asid'),
    (Z.eqb_sym (2 ^ vpn_bits - 1)).
Qed.

Lemma fits_eqb bits v :
  0 <= bits -> 0 <= v -> (v mod 2 ^ bits =? v) = (v <? 2 ^ bits).
Proof.
  intros Hb Hv. assert (0 < 2 ^ bits) by (by apply Z.pow_pos_nonneg).
  destruct (Z.ltb_spec v (2 ^ bits)) as [Hlt|Hge].
  - apply Z.eqb_eq. apply Z.mod_small. lia.
  - apply Z.eqb_neq. pose proof (Z.mod_pos_bound v (2 ^ bits)). lia.
Qed.

(** The entry [insert] writes answers to its own key exactly when the two
    identifiers survive the conversion to their members. *)
Lemma matches_entry_of pdid' asid' va pteb' ppn' :
  is_UX pdid' -> is_UX asid' -> is_UX va ->
  matches (entry_of pdid' asid' (Z.shiftr va page_shift) pteb' ppn')
    pdid' asid' va
  = (pdid' <? 2 ^ pdid_bits) && (asid' <? 2 ^ asid_bits).
Proof.
  intros [Hp _] [Ha _] Hva. unfold matches, entry_of. cbn [pdid asid vpn].
  rewrite (vpn_stored WF va Hva), Z.eqb_refl, andb_true_r.
  destruct WF. unfold convert.
  rewrite bitfield_mod by lia. by rewrite !fits_eqb by lia.
Qed.

(** [lookup] after [flush()], for every key. *)
Lemma lookup_replicate_default pdid' asid' va :
  lookup pdid' asid' va (replicate (Z.to_nat size) entry_default) =
    Some (if sentinel_key pdid' asid' va then Some (index_of va) else None,
          replicate (Z.to_nat size) entry_default).
Proof.
  rewrite (lookup_eq _ _ _ _ entry_default).
  - by rewrite matches_default.
  - apply lookup_replicate_2. by apply index_of_lt.
Qed.

End op_facts.

(** Closes the side conditions of a concrete instance by evaluation. *)
Ltac by_evaluation :=
  first [ reflexivity
        | (cbn; lia)
        | (vm_compute; intuition congruence) ].

Ltac param_ok := constructor; by_evaluation.

(** ** Round trip of [insert] and [lookup] *)

Section roundtrip.
Context {P : PARAM}.
Hypothesis WF : wf_param.

(** C1 (amended). For arguments of type [UX] and an array of [size]
    elements, [insert(pdid, asid, va, pteb, ppn)] succeeds and writes slot
    [index_of va]; the [lookup(pdid, asid, va)] that follows hits that slot
    exactly when [pdid] fits [pdid_t] and [asid] fits [asid_bits] bits, and
    misses otherwise; the entry in the slot holds [ppn] modulo
    [2^ppn_bits] and [pteb] modulo [2^page_shift], hence [ppn] and [pteb]
    themselves when they fit. *)
Theorem insert_lookup_roundtrip pdid' asid' va pteb' ppn' t :
  wf_state t ->
  is_UX pdid' -> is_UX asid' -> is_UX va -> is_UX pteb' -> is_UX ppn' ->
  exists t1 e,
    insert pdid' asid' va pteb' ppn' t = Some (tt, t1) /\
    t1 !! index_of va = Some e /\
    lookup pdid' asid' va t1 =
      Some (if (pdid' <? 2 ^ pdid_bits) && (asid' <? 2 ^ asid_bits)
            then Some (index_of va) else None, t1) /\
    ppn e = ppn' mod 2 ^ ppn_bits /\
    pteb e = pteb' mod 2 ^ page_shift /\
    (ppn' < 2 ^ ppn_bits -> ppn e = ppn') /\
    (pteb' < 2 ^ page_shift -> pteb e = pteb').
Proof.
  intros Ht Hp Ha Hva Hb Hn.
  pose (e := entry_of pdid' asid' (Z.shiftr va page_shift) pteb' ppn').
  exists (<[index_of va := e]> t), e.
  assert (He : <[index_of va := e]> t !! index_of va = Some e).
  { apply list_lookup_insert_eq. rewrite Ht. by apply index_of_lt. }
  split; [by apply insert_eq|]. split; [done|].
  split.
  { rewrite (lookup_eq _ _ _ _ e He). subst e.
    by rewrite matches_entry_of. }
  destruct WF. subst e. cbn [ppn pteb entry_of]. unfold pte_bits.
  rewrite !bitfield_mod by lia.
  repeat split; try done.
  - intros Hlt. apply Z.mod_small. unfold is_UX in Hn. lia.
  - intros Hlt. apply Z.mod_small. unfold is_UX in Hb. lia.
Qed.

End roundtrip.

Section roundtrip_rv32.
Local Existing Instance rv32_tlb4.

Lemma insert_lookup_roundtrip_witness :
  exists t1 e,
    insert 1 7 0x1000 7 0x55 (replicate 4 entry_default) = Some (tt, t1) /\
    t1 !! 1%nat = Some e /\
    lookup 1 7 0x1000 t1 = Some (Some 1%nat, t1) /\
    ppn e = 0x55 /\ pteb e = 7 /\
    (0x55 < 2 ^ 22 -> ppn e = 0x55) /\ (7 < 2 ^ 12 -> pteb e = 7).
Proof.
  apply (insert_lookup_roundtrip (P := rv32_tlb4)); try param_ok;
    by_evaluation.
Defined.

(** C1 (as stated) fails: with 10-bit address-space identifiers the
    identifier 1024 is stored as 0, so the lookup that follows the insert
    misses; and the physical page number [2^22] is stored as 0. *)
Lemma insert_lookup_roundtrip_counterexample :
  is_UX 1024 /\ is_UX (2 ^ 22) /\
  exists t0 t1 t2,
    tagged_tlb = Some t0 /\
    insert 1 1024 0x1000 7 0x55 t0 = Some (tt, t1) /\
    lookup 1 1024 0x1000 t1 = Some (None, t1) /\
    insert 1 7 0x1000 7 (2 ^ 22) t0 = Some (tt, t2) /\
    lookup 1 7 0x1000 t2 = Some (Some 1%nat, t2) /\
    ppn <$> t2 !! 1%nat = Some 0.
Proof.
  split; [by_evaluation|]. split; [by_evaluation|].
  eexists _, _, _. repeat split; vm_compute; reflexivity.
Qed.

End roundtrip_rv32.

(** ** The sentinel and [flush()] *)

Section sentinel_slot.
Context {P : PARAM}.
Hypothesis WF : wf_param.

(** C2 (amended). When the slot [index_of va] holds a default-constructed
    entry, [lookup(pdid, asid, va)] leaves the array as it is and misses for
    every key but the sentinel's own tags: it hits exactly when [pdid = 0],
    [asid = asid_limit] and [va >> page_shift = vpn_limit]. *)
Theorem lookup_sentinel_slot pdid' asid' va t :
  t !! index_of va = Some entry_default ->
  lookup pdid' asid' va t =
    Some (if sentinel_key pdid' asid' va then Some (index_of va) else None, t)
  /\ (sentinel_key pdid' asid' va = false ->
      lookup pdid' asid' va t = Some (None, t)).
Proof.
  intros He. rewrite (lookup_eq _ _ _ _ _ He), (matches_default WF).
  split; [done|]. by intros ->.
Qed.

(** C3 (amended). If [lookup(pdid, asid, va)] hits and the key is not the
    sentinel's own tags, then after [flush()] the same lookup misses. *)
Theorem flush_then_lookup_misses pdid' asid' va t :
  wf_state t ->
  (exists i, lookup pdid' asid' va t = Some (Some i, t)) ->
  sentinel_key pdid' asid' va = false ->
  exists t1,
    flush t = Some (tt, t1) /\ lookup pdid' asid' va t1 = Some (None, t1).
Proof.
  intros Ht _ Hkey. eexists. split; [by apply flush_eq|].
  by rewrite (lookup_replicate_default WF), Hkey.
Qed.

End sentinel_slot.

Section sentinel_slot_rv32.
Local Existing Instance rv32_tlb4.

Lemma lookup_sentinel_slot_witness :
  lookup 1 7 0x1000 (replicate 4 entry_default) =
    Some (None, replicate 4 entry_default)
  /\ (sentinel_key 1 7 0x1000 = false ->
      lookup 1 7 0x1000 (replicate 4 entry_default) =
        Some (None, replicate 4 entry_default)).
Proof.
  apply (lookup_sentinel_slot (P := rv32_tlb4)); [param_ok | reflexivity].
Defined.

(** C2 (as stated) fails: on the freshly constructed array, slot 3 holds the
    sentinel, and the key with protection domain 0, the largest
    address-space identifier and the last page of the address space hits
    it. *)
Lemma lookup_sentinel_slot_counterexample :
  is_UX 0 /\ is_UX 1023 /\ is_UX 0xFFFFFFFF /\
  exists t0,
    tagged_tlb = Some t0 /\
    t0 !! index_of 0xFFFFFFFF = Some entry_default /\
    lookup 0 1023 0xFFFFFFFF t0 = Some (Some 3%nat, t0).
Proof.
  repeat (split; [by_evaluation|]).
  eexists. repeat split; vm_compute; reflexivity.
Qed.

Lemma flush_then_lookup_misses_witness :
  exists t1,
    flush (<[1%nat := entry_of 1 7 1 7 0x55]> (replicate 4 entry_default))
      = Some (tt, t1) /\
    lookup 1 7 0x1000 t1 = Some (None, t1).
Proof.
  apply (flush_then_lookup_misses (P := rv32_tlb4)).
  - param_ok.
  - reflexivity.
  - exists 1%nat. vm_compute. reflexivity.
  - reflexivity.
Defined.

(** C3 (as stated) fails: the mapping inserted for the last page under
    protection domain 0 and address-space identifier 1023 hits; after
    [flush()] the same lookup still returns slot 3, which now holds the
    sentinel. *)
Lemma flush_then_lookup_misses_counterexample :
  is_UX 0 /\ is_UX 1023 /\ is_UX 0xFFFFF000 /\
  exists t0 t1 t2,
    tagged_tlb = Some t0 /\
    insert 0 1023 0xFFFFF000 7 0x55 t0 = Some (tt, t1) /\
    lookup 0 1023 0xFFFFF000 t1 = Some (Some 3%nat, t1) /\
    flush t1 = Some (tt, t2) /\
    lookup 0 1023 0xFFFFF000 t2 = Some (Some 3%nat, t2) /\
    t2 !! 3%nat = Some entry_default.
Proof.
  repeat (split; [by_evaluation|]).
  eexists _, _, _. repeat split; vm_compute; reflexivity.
Qed.

End sentinel_slot_rv32.

(** ** [flush(asid)] *)

Section flush_by_asid.
Context {P : PARAM}.
Hypothesis WF : wf_param.

Lemma matches_asid e pdid' asid' va :
  matches e pdid' asid' va = true -> asid e = asid'.
Proof.
  unfold matches. intros H.
  apply andb_prop in H as [H _]. apply andb_prop in H as [_ H].
  by apply Z.eqb_eq.
Qed.

Lemma lookup_hit_inv pdid' asid' va t i :
  wf_state t ->
  lookup pdid' asid' va t = Some (Some i, t) ->
  i = index_of va /\
  exists e, t !! i = Some e /\ matches e pdid' asid' va = true.
Proof.
  intros Ht H. destruct (wf_state_lookup WF t va Ht) as [e He].
  rewrite (lookup_eq _ _ _ _ _ He) in H.
  destruct (matches e pdid' asid' va) eqn:Hm; [|done].
  injection H as <-. eauto.
Qed.

(** C4 (amended). On an array of [size] elements [flush(asid_x)] succeeds
    and keeps the number of elements; every entry whose stored
    address-space identifier equals [asid_x] becomes the sentinel and every
    other entry is unchanged.  Afterwards a lookup under [asid_x] misses
    unless its key is the sentinel's own tags, and a lookup under another
    identifier that hit before still hits the same, unchanged entry. *)
Theorem flush_asid_frame asid_x t :
  wf_state t ->
  exists t1,
    flush_asid asid_x t = Some (tt, t1) /\
    length t1 = length t /\
    (forall i e, t !! i = Some e -> asid e = asid_x ->
       t1 !! i = Some entry_default) /\
    (forall i e, t !! i = Some e -> asid e <> asid_x -> t1 !! i = Some e) /\
    (forall pdid' va, sentinel_key pdid' asid_x va = false ->
       lookup pdid' asid_x va t1 = Some (None, t1)) /\
    (forall pdid' asid' va i, asid' <> asid_x ->
       lookup pdid' asid' va t = Some (Some i, t) ->
       lookup pdid' asid' va t1 = Some (Some i, t1) /\ t1 !! i = t !! i).
Proof.
  intros Ht. exists (reset_if_asid asid_x <$> t).
  split; [by apply flush_asid_eq|].
  split; [by rewrite length_fmap|].
  split; [|split; [|split]].
  - intros i e He Ha. rewrite list_lookup_fmap, He. simpl.
    unfold reset_if_asid. by rewrite (proj2 (Z.eqb_eq _ _) Ha).
  - intros i e He Ha. rewrite list_lookup_fmap, He. simpl.
    unfold reset_if_asid. by rewrite (proj2 (Z.eqb_neq _ _) Ha).
  - intros pdid' va Hkey.
    destruct (wf_state_lookup WF t va Ht) as [e He].
    rewrite (lookup_eq _ _ _ _ (reset_if_asid asid_x e))
      by (by rewrite list_lookup_fmap, He).
    unfold reset_if_asid. destruct (asid e =? asid_x) eqn:Ha.
    + by rewrite (matches_default WF), Hkey.
    + unfold matches. by rewrite Ha, andb_false_r.
  - intros pdid' asid' va i Hne Hhit.
    destruct (lookup_hit_inv _ _ _ _ _ Ht Hhit) as (-> & e & He & Hm).
    assert (Hkeep : reset_if_asid asid_x e = e).
    { unfold reset_if_asid. apply matches_asid in Hm.
      rewrite (proj2 (Z.eqb_neq _ _)); [done | congruence]. }
    assert (He1 : (reset_if_asid asid_x <$> t) !! index_of va = Some e).
    { by rewrite list_lookup_fmap, He; simpl; rewrite Hkeep. }
    split; [|by rewrite He1, He].
    by rewrite (lookup_eq _ _ _ _ _ He1), Hm.
Qed.

End flush_by_asid.

Section flush_by_asid_rv32.
Local Existing Instance rv32_tlb4.

Lemma flush_asid_frame_witness :
  exists t1,
    flush_asid 7
      (<[1%nat := entry_of 1 7 1 7 0x55]>
         (<[2%nat := entry_of 1 8 2 7 0x56]> (replicate 4 entry_default)))
      = Some (tt, t1) /\
    t1 = <[2%nat := entry_of 1 8 2 7 0x56]> (replicate 4 entry_default).
Proof.
  assert (Hwf : wf_param (P := rv32_tlb4)) by param_ok.
  assert (Ht : wf_state
    (<[1%nat := entry_of 1 7 1 7 0x55]>
       (<[2%nat := entry_of 1 8 2 7 0x56]> (replicate 4 entry_default))))
    by reflexivity.
  destruct (flush_asid_frame Hwf 7 _ Ht) as (t1 & Hrun & _).
  exists t1. split; [exact Hrun|].
  vm_compute in Hrun. injection Hrun as <-. reflexivity.
Defined.

(** C4 (as stated) fails in its first consequence: the mapping inserted
    under the largest address-space identifier for the last page, in
    protection domain 0, is reset by [flush(1023)], and the lookup for it
    then hits the sentinel that replaced it. *)
Lemma flush_asid_frame_counterexample :
  is_UX 0 /\ is_UX 1023 /\ is_UX 0xFFFFF000 /\
  exists t0 t1 t2,
    tagged_tlb = Some t0 /\
    insert 0 1023 0xFFFFF000 7 0x55 t0 = Some (tt, t1) /\
    asid <$> t1 !! 3%nat = Some 1023 /\
    flush_asid 1023 t1 = Some (tt, t2) /\
    t2 !! 3%nat = Some entry_default /\
    lookup 0 1023 0xFFFFF000 t2 = Some (Some 3%nat, t2).
Proof.
  repeat (split; [by_evaluation|]).
  eexists _, _, _. repeat split; vm_compute; reflexivity.
Qed.

End flush_by_asid_rv32.

(** ** [insert] and [lookup] on one slot *)

Section one_slot.
Context {P : PARAM}.
Hypothesis WF : wf_param.

(** C5. For [va1] and [va2] with different virtual page numbers and the
    same index ([va2] of type [UX]): after an insert for [va1] and then an
    insert for [va2], under any identifiers, every lookup for [va1]
    misses. *)
Theorem insert_evicts pdid1 asid1 va1 pteb1 ppn1 pdid2 asid2 va2 pteb2 ppn2
    pdid' asid' t :
  wf_state t ->
  is_UX va2 ->
  Z.shiftr va1 page_shift <> Z.shiftr va2 page_shift ->
  Z.land (Z.shiftr va1 page_shift) mask =
    Z.land (Z.shiftr va2 page_shift) mask ->
  exists t1 t2,
    insert pdid1 asid1 va1 pteb1 ppn1 t = Some (tt, t1) /\
    insert pdid2 asid2 va2 pteb2 ppn2 t1 = Some (tt, t2) /\
    lookup pdid' asid' va1 t2 = Some (None, t2).
Proof.
  intros Ht Hva2 Hvpn Hidx.
  assert (Hi : index_of va1 = index_of va2) by (unfold index_of; by rewrite Hidx).
  eexists _, _.
  split; [by apply insert_eq|].
  split; [apply (insert_eq WF); by apply wf_state_insert|].
  erewrite lookup_eq.
  2:{ rewrite Hi. apply list_lookup_insert_eq.
      rewrite length_insert, Ht. by apply index_of_lt. }
  unfold matches, entry_of. cbn [pdid asid vpn].
  rewrite (vpn_stored WF va2 Hva2).
  rewrite (proj2 (Z.eqb_neq (Z.shiftr va2 page_shift) (Z.shiftr va1 page_shift)))
    by congruence.
  by rewrite andb_false_r.
Qed.

(** C9. On an array of [size] elements [lookup] returns and leaves the
    array exactly as it was; whenever it returns, the array is unchanged. *)
Theorem lookup_pure pdid' asid' va t :
  wf_state t ->
  (exists r, lookup pdid' asid' va t = Some (r, t)) /\
  (forall r t', lookup pdid' asid' va t = Some (r, t') -> t' = t).
Proof.
  intros Ht. destruct (wf_state_lookup WF t va Ht) as [e He].
  rewrite (lookup_eq _ _ _ _ _ He). split; [eauto|].
  intros r t' H. by injection H as _ <-.
Qed.

(** C10. On an array of [size] elements [insert(pdid, asid, va, pteb, ppn)]
    succeeds, keeps the number of elements, leaves every slot other than
    [(va >> page_shift) & mask] as it was, and writes into that slot an
    entry built by the constructor, whose [pma] is zero whatever the slot
    held before. *)
Theorem insert_frame pdid' asid' va pteb' ppn' t :
  wf_state t ->
  exists t1,
    insert pdid' asid' va pteb' ppn' t = Some (tt, t1) /\
    length t1 = length t /\
    (forall j, j <> Z.to_nat (Z.land (Z.shiftr va page_shift) mask) ->
       t1 !! j = t !! j) /\
    exists e,
      t1 !! Z.to_nat (Z.land (Z.shiftr va page_shift) mask) = Some e /\
      e = entry_of pdid' asid' (Z.shiftr va page_shift) pteb' ppn' /\
      pma e = 0.
Proof.
  intros Ht. fold (index_of va).
  pose (e := entry_of pdid' asid' (Z.shiftr va page_shift) pteb' ppn').
  exists (<[index_of va := e]> t).
  split; [by apply insert_eq|].
  split; [by rewrite length_insert|].
  split.
  - intros j Hj. by apply list_lookup_insert_ne.
  - exists e. split; [|done].
    apply list_lookup_insert_eq. rewrite Ht. by apply index_of_lt.
Qed.

(** C7. The parameterized constructor is a total function; the entry it
    builds holds [asid], [vpn], [pteb] and [ppn] modulo two to the width of
    their bit-fields ([asid_bits], [vpn_bits], [page_shift], [ppn_bits]),
    each within its field's range, and a zero [pma]. *)
Theorem entry_of_wraps pdid' asid' vpn' pteb' ppn' :
  let e := entry_of pdid' asid' vpn' pteb' ppn' in
  asid e = asid' mod 2 ^ asid_bits /\
  vpn e = vpn' mod 2 ^ vpn_bits /\
  pteb e = pteb' mod 2 ^ page_shift /\
  ppn e = ppn' mod 2 ^ ppn_bits /\
  pma e = 0 /\
  0 <= asid e < 2 ^ asid_bits /\ 0 <= vpn e < 2 ^ vpn_bits /\
  0 <= pteb e < 2 ^ page_shift /\ 0 <= ppn e < 2 ^ ppn_bits.
Proof.
  pose proof (vpn_bits_pos WF). destruct WF.
  cbn [entry_of asid vpn pteb ppn pma]. unfold pte_bits.
  repeat split; try (apply bitfield_mod; lia); try (apply bitfield_range; lia).
Qed.

End one_slot.

Section one_slot_rv32.
Local Existing Instance rv32_tlb4.

Lemma insert_evicts_witness :
  exists t1 t2,
    insert 1 7 0x1000 7 0x55 (replicate 4 entry_default) = Some (tt, t1) /\
    insert 2 9 0x5000 3 0x99 t1 = Some (tt, t2) /\
    lookup 1 7 0x1000 t2 = Some (None, t2).
Proof.
  apply (insert_evicts (P := rv32_tlb4)); try param_ok; by_evaluation.
Defined.

Lemma lookup_pure_witness :
  (exists r, lookup 1 7 0x1000 (replicate 4 entry_default) =
               Some (r, replicate 4 entry_default)) /\
  (forall r t', lookup 1 7 0x1000 (replicate 4 entry_default) = Some (r, t') ->
                t' = replicate 4 entry_default).
Proof.
  apply (lookup_pure (P := rv32_tlb4)); [param_ok | reflexivity].
Defined.

Lemma insert_frame_witness :
  exists t1,
    insert 1 7 0x1000 7 0x55 (replicate 4 entry_default) = Some (tt, t1) /\
    length t1 = 4%nat /\
    (forall j, j <> 1%nat -> t1 !! j = replicate 4 entry_default !! j) /\
    exists e, t1 !! 1%nat = Some e /\ e = entry_of 1 7 1 7 0x55 /\ pma e = 0.
Proof.
  apply (insert_frame (P := rv32_tlb4)); [param_ok | reflexivity].
Defined.

Lemma entry_of_wraps_witness :
  let e := entry_of 1 (1024 + 7) (2 ^ 20 + 5) (2 ^ 12 + 3) (2 ^ 22 + 0x55) in
  asid e = 7 /\ vpn e = 5 /\ pteb e = 3 /\ ppn e = 0x55 /\ pma e = 0 /\
  0 <= asid e < 2 ^ 10 /\ 0 <= vpn e < 2 ^ 20 /\
  0 <= pteb e < 2 ^ 12 /\ 0 <= ppn e < 2 ^ 22.
Proof.
  apply (entry_of_wraps (P := rv32_tlb4)). param_ok.
Defined.

End one_slot_rv32.

(** ** The direct-mapped placement invariant *)

Section placement.
Context {P : PARAM}.
Hypothesis WF : wf_param.

Lemma placed_replicate n : placed (replicate n entry_default).
Proof. intros i e He Hne. by apply lookup_replicate_1 in He as [-> _]. Qed.

Lemma placed_reset asid' t : placed t -> placed (reset_if_asid asid' <$> t).
Proof.
  intros Hpl i e' He' Hne.
  rewrite list_lookup_fmap in He'.
  destruct (t !! i) as [e|] eqn:He; [|done].
  injection He' as <-. unfold reset_if_asid in *.
  destruct (asid e =? asid'); [done|]. by apply (Hpl i).
Qed.

Lemma placed_insert pdid' asid' va pteb' ppn' t :
  is_UX va -> placed t ->
  placed (<[index_of va :=
             entry_of pdid' asid' (Z.shiftr va page_shift) pteb' ppn']> t).
Proof.
  intros Hva Hpl i e He Hne.
  destruct (decide (i = index_of va)) as [->|Hi].
  - apply list_lookup_insert_Some in He as [(_ & <- & _)|(? & _)]; [|done].
    cbn [vpn entry_of]. by rewrite (vpn_stored WF va Hva), (index_of_Z WF).
  - rewrite list_lookup_insert_ne in He by done. by apply (Hpl i).
Qed.

Lemma reachable_inv t : reachable t -> wf_state t /\ placed t.
Proof.
  induction 1 as [t Hnew | t c t' _ [Ht Hpl] Hty Hrun].
  - rewrite tagged_tlb_eq in Hnew. injection Hnew as <-.
    split; [apply wf_state_replicate | apply placed_replicate].
  - destruct c as [|a|p a va|p a va b n]; cbn [run_call call_typed] in *.
    + rewrite (flush_eq _ Ht) in Hrun. injection Hrun as <-.
      split; [apply wf_state_replicate | apply placed_replicate].
    + rewrite (flush_asid_eq _ _ Ht) in Hrun. injection Hrun as <-.
      split; [by apply wf_state_fmap | by apply placed_reset].
    + destruct (wf_state_lookup WF t va Ht) as [e He].
      unfold bind in Hrun. rewrite (lookup_eq _ _ _ _ _ He) in Hrun.
      by injection Hrun as <-.
    + destruct Hty as (_ & _ & Hva & _).
      rewrite (insert_eq WF _ _ _ _ _ _ Ht) in Hrun. injection Hrun as <-.
      split; [by apply wf_state_insert | by apply placed_insert].
Qed.

(** C6. In every state of the array reached from construction by calls of
    [insert], [flush()], [flush(asid)] and [lookup] with arguments of type
    [UX], every entry at index [i] that is not the sentinel satisfies
    [(vpn & mask) == i]. *)
Theorem placement_invariant t i e :
  reachable t ->
  t !! i = Some e -> e <> entry_default ->
  Z.land (vpn e) mask = Z.of_nat i.
Proof. intros Hr. by apply (reachable_inv t Hr). Qed.

End placement.

Section placement_rv32.
Local Existing Instance rv32_tlb4.

Lemma placement_invariant_witness :
  Z.land (vpn (entry_of 1 7 5 3 0x99)) mask = Z.of_nat 1.
Proof.
  assert (Hwf : wf_param (P := rv32_tlb4)) by param_ok.
  assert (Hr : reachable
    (<[1%nat := entry_of 1 7 5 3 0x99]> (replicate 4 entry_default))).
  { apply reachable_call with
      (t := replicate 4 entry_default) (c := call_insert 1 7 0x5000 3 0x99).
    - apply reachable_new. reflexivity.
    - repeat split; by_evaluation.
    - reflexivity. }
  apply (placement_invariant Hwf _ 1%nat _ Hr).
  - reflexivity.
  - vm_compute. congruence.
Defined.

End placement_rv32.

(** ** The four-slot scenario *)

Section scenario.
Context {P : PARAM}.
Hypothesis WF : wf_param.

Lemma is_UX_le v w : is_UX w -> 0 <= v <= w -> is_UX v.
Proof. unfold is_UX. lia. Qed.

Lemma lookup_own_slot pdid' asid' va pteb' ppn' t :
  wf_state t ->
  is_UX pdid' -> is_UX asid' -> is_UX va ->
  pdid' < 2 ^ pdid_bits -> asid' < 2 ^ asid_bits ->
  let t1 := <[index_of va :=
               entry_of pdid' asid' (Z.shiftr va page_shift) pteb' ppn']> t in
  lookup pdid' asid' va t1 = Some (Some (index_of va), t1).
Proof.
  intros Ht Hp Ha Hva Hpf Haf t1.
  erewrite lookup_eq.
  2:{ apply list_lookup_insert_eq. rewrite Ht. by apply index_of_lt. }
  rewrite (matches_entry_of WF) by done.
  by rewrite (proj2 (Z.ltb_lt _ _) Hpf), (proj2 (Z.ltb_lt _ _) Haf).
Qed.

(** C8. With four slots and [page_shift = 12], for every instance in which
    the scenario's values fit ([0x5000] is a [UX], 7 fits [asid_bits] bits
    and [0x99] fits [ppn_bits] bits): the mask is [0b11]; on the fresh array
    [insert(1, 7, 0x1000, 0x7, 0x55)] stores [vpn = 1] in slot 1 and
    [lookup(1, 7, 0x1000)] hits it with [ppn = 0x55]; then
    [insert(1, 7, 0x5000, 0x3, 0x99)] stores [vpn = 5] in the same slot 1,
    after which [lookup(1, 7, 0x1000)] misses and [lookup(1, 7, 0x5000)]
    hits slot 1 with [ppn = 0x99]. *)
Theorem scenario_four_slots :
  tlb_size = 4 -> page_shift = 12 ->
  is_UX 0x5000 -> 7 < 2 ^ asid_bits -> 0x99 < 2 ^ ppn_bits ->
  exists t0 t1 t2 e1 e2,
    mask = 3 /\
    tagged_tlb = Some t0 /\
    insert 1 7 0x1000 0x7 0x55 t0 = Some (tt, t1) /\
    t1 !! 1%nat = Some e1 /\ vpn e1 = 1 /\ ppn e1 = 0x55 /\
    lookup 1 7 0x1000 t1 = Some (Some 1%nat, t1) /\
    insert 1 7 0x5000 0x3 0x99 t1 = Some (tt, t2) /\
    t2 !! 1%nat = Some e2 /\ vpn e2 = 5 /\ ppn e2 = 0x99 /\
    lookup 1 7 0x1000 t2 = Some (None, t2) /\
    lookup 1 7 0x5000 t2 = Some (Some 1%nat, t2).
Proof.
  intros Hsize Hps Hux Hasid Hppn.
  assert (Hmask : mask = 3).
  { unfold mask, shift, size, ctz_pow2. by rewrite Hsize. }
  assert (Hs1 : Z.shiftr 0x1000 page_shift = 1) by (by rewrite Hps).
  assert (Hs5 : Z.shiftr 0x5000 page_shift = 5) by (by rewrite Hps).
  assert (Hi1 : index_of 0x1000 = 1%nat).
  { unfold index_of. by rewrite Hs1, Hmask. }
  assert (Hi5 : index_of 0x5000 = 1%nat).
  { unfold index_of. by rewrite Hs5, Hmask. }
  assert (Hux1 : is_UX 0x1000) by (apply (is_UX_le _ _ Hux); lia).
  assert (Hux7 : is_UX 7) by (apply (is_UX_le _ _ Hux); lia).
  assert (Hux_1 : is_UX 1) by (apply (is_UX_le _ _ Hux); lia).
  assert (Hpdid : 1 < 2 ^ pdid_bits).
  { destruct WF. change 1 with (2 ^ 0) at 1. apply Z.pow_lt_mono_r; lia. }
  pose proof (vpn_stored WF _ Hux1) as Hv1. rewrite Hs1 in Hv1.
  pose proof (vpn_stored WF _ Hux) as Hv5. rewrite Hs5 in Hv5.
  pose (t0 := replicate (Z.to_nat size) entry_default).
  pose (e1 := entry_of 1 7 (Z.shiftr 0x1000 page_shift) 0x7 0x55).
  pose (e2 := entry_of 1 7 (Z.shiftr 0x5000 page_shift) 0x3 0x99).
  pose (t1 := <[index_of 0x1000 := e1]> t0).
  pose (t2 := <[index_of 0x5000 := e2]> t1).
  assert (Ht0 : wf_state t0) by apply wf_state_replicate.
  assert (Ht1 : wf_state t1) by (by apply wf_state_insert).
  assert (He1 : t1 !! 1%nat = Some e1).
  { rewrite <- Hi1. apply list_lookup_insert_eq. rewrite Ht0.
    by apply index_of_lt. }
  assert (He2 : t2 !! 1%nat = Some e2).
  { rewrite <- Hi5 at 1. apply list_lookup_insert_eq. rewrite Ht1.
    by apply index_of_lt. }
  exists t0, t1, t2, e1, e2.
  split; [done|]. split; [apply tagged_tlb_eq|].
  split; [by apply insert_eq|]. split; [done|].
  split; [subst e1; cbn [vpn entry_of]; by rewrite Hs1|].
  split.
  { destruct WF. subst e1. cbn [ppn entry_of]. apply bitfield_fits; lia. }
  split.
  { rewrite <- Hi1. by apply (lookup_own_slot 1 7 0x1000 0x7 0x55 t0). }
  split; [by apply insert_eq|]. split; [done|].
  split; [subst e2; cbn [vpn entry_of]; by rewrite Hs5|].
  split.
  { destruct WF. subst e2. cbn [ppn entry_of]. apply bitfield_fits; lia. }
  split.
  - rewrite <- Hi1 in He2. rewrite (lookup_eq _ _ _ _ _ He2).
    subst e2. unfold matches. cbn [pdid asid vpn entry_of].
    by rewrite Hs5, Hv5, Hs1, andb_false_r.
  - rewrite <- Hi5. by apply (lookup_own_slot 1 7 0x5000 0x3 0x99 t1).
Qed.

End scenario.

Lemma scenario_four_slots_witness :
  exists t0 t1 t2 e1 e2,
    mask (P := rv32_tlb4) = 3 /\
    tagged_tlb (P := rv32_tlb4) = Some t0 /\
    insert (P := rv32_tlb4) 1 7 0x1000 0x7 0x55 t0 = Some (tt, t1) /\
    t1 !! 1%nat = Some e1 /\ vpn e1 = 1 /\ ppn e1 = 0x55 /\
    lookup (P := rv32_tlb4) 1 7 0x1000 t1 = Some (Some 1%nat, t1) /\
    insert (P := rv32_tlb4) 1 7 0x5000 0x3 0x99 t1 = Some (tt, t2) /\
    t2 !! 1%nat = Some e2 /\ vpn e2 = 5 /\ ppn e2 = 0x99 /\
    lookup (P := rv32_tlb4) 1 7 0x1000 t2 = Some (None, t2) /\
    lookup (P := rv32_tlb4) 1 7 0x5000 t2 = Some (Some 1%nat, t2).
Proof.
  apply (scenario_four_slots (P := rv32_tlb4)); try param_ok; by_evaluation.
Defined.

(** ** The same behaviour with a 64-bit [UX] *)

Section examples_rv64.
Local Existing Instance rv64_tlb4.

Example rv64_param_ok : wf_param.
Proof. param_ok. Qed.

Example rv64_default_is_sentinel :
  entry_default = sentinel /\
  sentinel = {| ppn := 2 ^ 38 - 1; asid := 2 ^ 26 - 1; vpn := 2 ^ 52 - 1;
                pteb := 0; pdid := 0; pma := 0 |}.
Proof. split; reflexivity. Qed.

Example rv64_roundtrip :
  exists t0 t1,
    tagged_tlb = Some t0 /\
    insert 1 7 0x5000 0x3 0x99 t0 = Some (tt, t1) /\
    lookup 1 7 0x5000 t1 = Some (Some 1%nat, t1) /\
    lookup 1 7 0x1000 t1 = Some (None, t1) /\
    lookup 2 7 0x5000 t1 = Some (None, t1) /\
    lookup 1 8 0x5000 t1 = Some (None, t1).
Proof. eexists _, _. repeat split; vm_compute; reflexivity. Qed.

Example rv64_sentinel_key_hits :
  exists t0,
    tagged_tlb = Some t0 /\
    lookup 0 (2 ^ 26 - 1) (2 ^ 64 - 1) t0 = Some (Some 3%nat, t0).
Proof. eexists. split; vm_compute; reflexivity. Qed.

Example rv64_flush_asid :
  exists t0 t1 t2 t3,
    tagged_tlb = Some t0 /\
    insert 1 7 0x1000 0x7 0x55 t0 = Some (tt, t1) /\
    insert 1 8 0x2000 0x7 0x56 t1 = Some (tt, t2) /\
    flush_asid 7 t2 = Some (tt, t3) /\
    lookup 1 7 0x1000 t3 = Some (None, t3) /\
    lookup 1 8 0x2000 t3 = Some (Some 2%nat, t3).
Proof. eexists _, _, _, _. repeat split; vm_compute; reflexivity. Qed.

End examples_rv64.

(** ** Construction and the two flushes *)

Section flushes.
Context {P : PARAM}.
Hypothesis WF : wf_param.

(** X1. The constructor returns an array of [tlb_size] entries, each with
    all ones in [ppn], [asid] and [vpn] (the limits fit their bit-fields
    untruncated) and zero in [pteb], [pdid] and [pma]. *)
Theorem tagged_tlb_fresh :
  exists t0,
    tagged_tlb = Some t0 /\
    length t0 = Z.to_nat tlb_size /\
    forall i e, t0 !! i = Some e ->
      ppn e = 2 ^ ppn_bits - 1 /\ asid e = 2 ^ asid_bits - 1 /\
      vpn e = 2 ^ vpn_bits - 1 /\ pteb e = 0 /\ pdid e = 0 /\ pma e = 0.
Proof.
  eexists. split; [apply tagged_tlb_eq|].
  split; [apply length_replicate|].
  intros i e He. apply lookup_replicate_1 in He as [-> _].
  by rewrite (entry_default_sentinel WF).
Qed.

Lemma reset_if_asid_default a : reset_if_asid a entry_default = entry_default.
Proof. unfold reset_if_asid. by destruct (asid entry_default =? a). Qed.

Lemma reset_if_asid_hit a e :
  (asid e =? a) = true -> reset_if_asid a e = entry_default.
Proof. intros H. unfold reset_if_asid. by rewrite H. Qed.

Lemma reset_if_asid_skip a e :
  (asid e =? a) = false -> reset_if_asid a e = e.
Proof. intros H. unfold reset_if_asid. by rewrite H. Qed.

Lemma reset_if_asid_twice a b e :
  reset_if_asid a (reset_if_asid b e) = reset_if_asid b (reset_if_asid a e).
Proof.
  destruct (asid e =? a) eqn:Ha, (asid e =? b) eqn:Hb;
    rewrite ?(reset_if_asid_hit a e Ha), ?(reset_if_asid_hit b e Hb),
      ?(reset_if_asid_skip a e Ha), ?(reset_if_asid_skip b e Hb),
      ?reset_if_asid_default;
    auto using reset_if_asid_hit, reset_if_asid_skip, eq_sym.
Qed.

Lemma reset_if_asid_idemp a e :
  reset_if_asid a (reset_if_asid a e) = reset_if_asid a e.
Proof.
  destruct (asid e =? a) eqn:Ha.
  - rewrite (reset_if_asid_hit a e Ha). apply reset_if_asid_default.
  - by rewrite !(reset_if_asid_skip a e Ha).
Qed.

End flushes.

Section flushes_any_param.
Context {P : PARAM}.

(** X2. Whatever an array of [size] entries holds, [flush()] brings it to
    exactly the freshly constructed array; flushing twice is flushing
    once. *)
Theorem flush_restores_fresh t :
  wf_state t ->
  exists t0,
    tagged_tlb = Some t0 /\ flush t = Some (tt, t0) /\
    flush t0 = Some (tt, t0).
Proof.
  intros Ht. eexists. split; [apply tagged_tlb_eq|].
  split; [by apply flush_eq|]. apply flush_eq, wf_state_replicate.
Qed.

(** X3. [flush(asid)] is idempotent: a second [flush(asid)] with the same
    identifier changes nothing, also when the identifier is the sentinel's
    own all-ones value. *)
Theorem flush_asid_idempotent a t :
  wf_state t ->
  exists t1,
    flush_asid a t = Some (tt, t1) /\ flush_asid a t1 = Some (tt, t1).
Proof.
  intros Ht. exists (reset_if_asid a <$> t).
  split; [by apply flush_asid_eq|].
  rewrite flush_asid_eq by (by apply wf_state_fmap).
  rewrite <- list_fmap_compose. do 2 f_equal.
  apply list_fmap_ext. intros _ e _. apply reset_if_asid_idemp.
Qed.

(** X4. Flushes of two address spaces commute: [flush(a); flush(b)] and
    [flush(b); flush(a)] leave the same array. *)
Theorem flush_asid_commute a b t :
  wf_state t ->
  exists t',
    bind (flush_asid a) (fun _ => flush_asid b) t = Some (tt, t') /\
    bind (flush_asid b) (fun _ => flush_asid a) t = Some (tt, t').
Proof.
  intros Ht. exists (reset_if_asid b <$> (reset_if_asid a <$> t)).
  unfold bind.
  rewrite (flush_asid_eq a t Ht), (flush_asid_eq b t Ht).
  rewrite !flush_asid_eq by (by apply wf_state_fmap).
  split; [done|]. do 2 f_equal.
  rewrite <- !list_fmap_compose.
  apply list_fmap_ext. intros _ e _. apply reset_if_asid_twice.
Qed.

(** X5. On the freshly constructed (or fully flushed) array [flush(asid)]
    changes nothing, for every identifier: where the identifier equals the
    sentinel's all-ones [asid], sentinels are overwritten by sentinels. *)
Theorem flush_asid_fresh a t0 :
  tagged_tlb = Some t0 ->
  flush_asid a t0 = Some (tt, t0).
Proof.
  rewrite tagged_tlb_eq. intros [= <-].
  rewrite flush_asid_eq by apply wf_state_replicate.
  by rewrite fmap_replicate, reset_if_asid_default.
Qed.

End flushes_any_param.

(** ** Bounds, composition of inserts and the meaning of a hit *)

Section composition.
Context {P : PARAM}.
Hypothesis WF : wf_param.

Lemma run_call_wf c t :
  wf_state t ->
  exists t', run_call c t = Some (tt, t') /\ wf_state t'.
Proof.
  intros Ht. destruct c as [|a|p a va|p a va b n]; cbn [run_call].
  - eexists. split; [by apply flush_eq | apply wf_state_replicate].
  - eexists. split; [by apply flush_asid_eq | by apply wf_state_fmap].
  - destruct (wf_state_lookup WF t va Ht) as [e He].
    exists t. unfold bind. by rewrite (lookup_eq _ _ _ _ _ He).
  - eexists. split; [by apply insert_eq | by apply wf_state_insert].
Qed.

(** X6. No call reads or writes outside [tlb[]]: on an array of [size]
    entries every member function, with any arguments, returns and leaves
    an array of [size] entries; a [lookup] that hits returns a slot inside
    the array. *)
Theorem calls_stay_in_bounds c t :
  wf_state t ->
  (exists t', run_call c t = Some (tt, t') /\ wf_state t') /\
  (forall pdid' asid' va i t',
     lookup pdid' asid' va t = Some (Some i, t') ->
     (i < length t)%nat).
Proof.
  intros Ht. split; [by apply run_call_wf|].
  intros p a va i t' Hl.
  destruct (wf_state_lookup WF t va Ht) as [e He].
  rewrite (lookup_eq _ _ _ _ _ He) in Hl.
  destruct (matches e p a va); [|done]. injection Hl as <- _.
  rewrite Ht. by apply index_of_lt.
Qed.

(** X7. The slot of a virtual address is its page number modulo the
    number of slots, [(va / 2^page_shift) mod tlb_size], hence below
    [tlb_size]. *)
Theorem index_of_mod va :
  Z.of_nat (index_of va) = (va / 2 ^ page_shift) mod tlb_size /\
  0 <= Z.of_nat (index_of va) < tlb_size.
Proof.
  pose proof (land_mask_range WF (Z.shiftr va page_shift)) as Hr.
  rewrite (index_of_Z WF). split; [|exact Hr].
  rewrite mask_ones, Z.land_ones by apply shift_nonneg.
  destruct WF. rewrite Z.shiftr_div_pow2 by lia.
  fold size. by rewrite (size_pow2 WF).
Qed.

(** X8. The page offset plays no part: [lookup] and [insert] at
    [page * 2^page_shift + off], with [0 <= off < 2^page_shift], behave as
    at the page's base address. *)
Theorem page_offset_ignored pdid' asid' pteb' ppn' page off t :
  0 <= off < 2 ^ page_shift ->
  lookup pdid' asid' (page * 2 ^ page_shift + off) t =
    lookup pdid' asid' (page * 2 ^ page_shift) t /\
  insert pdid' asid' (page * 2 ^ page_shift + off) pteb' ppn' t =
    insert pdid' asid' (page * 2 ^ page_shift) pteb' ppn' t.
Proof.
  intros Hoff. destruct WF.
  assert (Hpow : 0 < 2 ^ page_shift) by (apply Z.pow_pos_nonneg; lia).
  assert (Hs : Z.shiftr (page * 2 ^ page_shift + off) page_shift =
               Z.shiftr (page * 2 ^ page_shift) page_shift).
  { rewrite !Z.shiftr_div_pow2 by lia.
    rewrite Z.div_add_l, Z.div_small, Z.div_mul by lia. lia. }
  unfold lookup, insert. by rewrite Hs.
Qed.

(** X9. The last write to a slot wins: an [insert] followed by an [insert]
    for an address of the same index leaves the array the second [insert]
    alone would leave. *)
Theorem insert_overwrites pdid1 asid1 va1 pteb1 ppn1 pdid2 asid2 va2 pteb2 ppn2 t :
  wf_state t ->
  index_of va1 = index_of va2 ->
  bind (insert pdid1 asid1 va1 pteb1 ppn1)
       (fun _ => insert pdid2 asid2 va2 pteb2 ppn2) t
  = insert pdid2 asid2 va2 pteb2 ppn2 t /\
  exists t', insert pdid2 asid2 va2 pteb2 ppn2 t = Some (tt, t').
Proof.
  intros Ht Hi. unfold bind.
  rewrite (insert_eq WF _ _ va1 _ _ _ Ht).
  rewrite (insert_eq WF _ _ va2 _ _ _ Ht).
  rewrite (insert_eq WF) by (by apply wf_state_insert).
  rewrite Hi, list_insert_insert_eq. eauto.
Qed.

(** X10. Inserts into different slots commute. *)
Theorem insert_commute pdid1 asid1 va1 pteb1 ppn1 pdid2 asid2 va2 pteb2 ppn2 t :
  wf_state t ->
  index_of va1 <> index_of va2 ->
  exists t',
    bind (insert pdid1 asid1 va1 pteb1 ppn1)
         (fun _ => insert pdid2 asid2 va2 pteb2 ppn2) t = Some (tt, t') /\
    bind (insert pdid2 asid2 va2 pteb2 ppn2)
         (fun _ => insert pdid1 asid1 va1 pteb1 ppn1) t = Some (tt, t').
Proof.
  intros Ht Hi. unfold bind.
  rewrite (insert_eq WF _ _ va1 _ _ _ Ht).
  rewrite (insert_eq WF _ _ va2 _ _ _ Ht).
  rewrite !(insert_eq WF) by (by apply wf_state_insert).
  eexists. split; [done|]. do 2 f_equal.
  by apply list_insert_insert_ne.
Qed.

End composition.

(** ** What a hit means *)

Section hits.
Context {P : PARAM}.
Hypothesis WF : wf_param.

Lemma matches_true e pdid' asid' va :
  matches e pdid' asid' va = true <->
  pdid e = pdid' /\ asid e = asid' /\ vpn e = Z.shiftr va page_shift.
Proof.
  unfold matches. rewrite !andb_true_iff, !Z.eqb_eq. tauto.
Qed.


(** X12. A slot answers to one key at a time: two lookups that hit the
    same slot of the same array have the same protection domain, the same
    address space and the same virtual page. *)
Theorem hit_unique pdid1 asid1 va1 pdid2 asid2 va2 t i :
  wf_state t ->
  lookup pdid1 asid1 va1 t = Some (Some i, t) ->
  lookup pdid2 asid2 va2 t = Some (Some i, t) ->
  pdid1 = pdid2 /\ asid1 = asid2 /\
  Z.shiftr va1 page_shift = Z.shiftr va2 page_shift.
Proof.
  intros Ht H1 H2.
  apply (lookup_hit_inv WF _ _ _ _ _ Ht) in H1 as (_ & e1 & He1 & Hm1).
  apply (lookup_hit_inv WF _ _ _ _ _ Ht) in H2 as (_ & e2 & He2 & Hm2).
  assert (e2 = e1) as -> by congruence.
  apply matches_true in Hm1 as (? & ? & ?).
  apply matches_true in Hm2 as (? & ? & ?).
  repeat split; congruence.
Qed.

(** X13. After [insert(pdid1, asid1, va, ..)] with [va] a [UX], a lookup
    for any address of the same slot hits exactly when its key equals the
    tags as stored: [pdid1] modulo the width of [pdid_t], [asid1] modulo
    [2^asid_bits], and the page of [va].  So a lookup under another
    protection domain or address space misses, and an identifier too wide
    for its member is found under its truncation. *)
Theorem lookup_after_insert pdid1 asid1 va pteb' ppn' pdid2 asid2 va' t :
  wf_state t -> is_UX va ->
  index_of va' = index_of va ->
  exists t1,
    insert pdid1 asid1 va pteb' ppn' t = Some (tt, t1) /\
    lookup pdid2 asid2 va' t1 =
      Some (if (pdid1 mod 2 ^ pdid_bits =? pdid2) &&
               (asid1 mod 2 ^ asid_bits =? asid2) &&
               (Z.shiftr va page_shift =? Z.shiftr va' page_shift)
            then Some (index_of va) else None, t1).
Proof.
  intros Ht Hva Hi. eexists. split; [by apply insert_eq|].
  erewrite lookup_eq.
  2:{ rewrite Hi. apply list_lookup_insert_eq. rewrite Ht.
      by apply index_of_lt. }
  unfold matches, entry_of. cbn [pdid asid vpn].
  rewrite (vpn_stored WF va Hva), Hi. unfold convert.
  destruct WF. by rewrite bitfield_mod by lia.
Qed.

(** X14. An [insert] does not disturb lookups in other slots: for an
    address of another index, [lookup] returns after the insert what it
    returned before. *)
Theorem insert_keeps_other_lookups pdid1 asid1 va pteb' ppn' pdid2 asid2 va' t r :
  wf_state t ->
  index_of va' <> index_of va ->
  lookup pdid2 asid2 va' t = Some (r, t) ->
  exists t1,
    insert pdid1 asid1 va pteb' ppn' t = Some (tt, t1) /\
    lookup pdid2 asid2 va' t1 = Some (r, t1).
Proof.
  intros Ht Hi Hl. eexists. split; [by apply insert_eq|].
  destruct (wf_state_lookup WF t va' Ht) as [e He].
  rewrite (lookup_eq _ _ _ _ _ He) in Hl. injection Hl as <-.
  apply lookup_eq. by rewrite list_lookup_insert_ne.
Qed.

End hits.

(** ** Invariants of the states reached from construction *)

Section invariants.
Context {P : PARAM}.
Hypothesis WF : wf_param.

Lemma entry_default_in_range : entry_in_range entry_default.
Proof.
  pose proof (vpn_bits_pos WF). destruct WF.
  unfold entry_in_range, entry_default. cbn [ppn asid vpn pteb pdid pma].
  unfold convert, pte_bits. rewrite Z.mod_0_l by (apply Z.pow_nonzero; lia).
  pose proof (bitfield_range ppn_bits ppn_limit).
  pose proof (bitfield_range asid_bits asid_limit).
  pose proof (bitfield_range vpn_bits vpn_limit).
  pose proof (bitfield_range page_shift 0).
  assert (0 < 2 ^ pdid_bits) by (apply Z.pow_pos_nonneg; lia).
  repeat split; lia.
Qed.

Lemma entry_of_in_range pdid' asid' vpn' pteb' ppn' :
  entry_in_range (entry_of pdid' asid' vpn' pteb' ppn').
Proof.
  pose proof (vpn_bits_pos WF). destruct WF.
  unfold entry_in_range, entry_of. cbn [ppn asid vpn pteb pdid pma].
  unfold convert, pte_bits.
  pose proof (bitfield_range ppn_bits ppn').
  pose proof (bitfield_range asid_bits asid').
  pose proof (bitfield_range vpn_bits vpn').
  pose proof (bitfield_range page_shift pteb').
  assert (0 < 2 ^ pdid_bits) by (apply Z.pow_pos_nonneg; lia).
  pose proof (Z.mod_pos_bound pdid' (2 ^ pdid_bits)).
  repeat split; lia.
Qed.

Lemma reset_if_asid_in_range a e :
  entry_in_range e -> entry_in_range (reset_if_asid a e).
Proof.
  intros He. unfold reset_if_asid.
  destruct (asid e =? a); [apply entry_default_in_range | done].
Qed.

Lemma reachable_range t : reachable t -> wf_state t /\ Forall entry_in_range t.
Proof.
  induction 1 as [t Hnew | t c t' _ [Ht Hr] Hty Hrun].
  - rewrite tagged_tlb_eq in Hnew. injection Hnew as <-.
    split; [apply wf_state_replicate|].
    apply Forall_replicate, entry_default_in_range.
  - destruct c as [|a|p a va|p a va b n]; cbn [run_call] in Hrun.
    + rewrite (flush_eq _ Ht) in Hrun. injection Hrun as <-.
      split; [apply wf_state_replicate|].
      apply Forall_replicate, entry_default_in_range.
    + rewrite (flush_asid_eq _ _ Ht) in Hrun. injection Hrun as <-.
      split; [by apply wf_state_fmap|].
      apply Forall_fmap. eapply Forall_impl; [exact Hr|].
      intros e He. by apply reset_if_asid_in_range.
    + destruct (wf_state_lookup WF t va Ht) as [e He].
      unfold bind in Hrun. rewrite (lookup_eq _ _ _ _ _ He) in Hrun.
      by injection Hrun as <-.
    + rewrite (insert_eq WF _ _ _ _ _ _ Ht) in Hrun. injection Hrun as <-.
      split; [by apply wf_state_insert|].
      apply Forall_insert; [done | apply entry_of_in_range].
Qed.

(** X15. In every state reached from construction by calls of the member
    functions, the array has [tlb_size] entries and every entry has its
    four packed members within their widths, [pdid] within [pdid_t] and
    [pma] equal to zero: no call ever sets [pma]. *)
Theorem reachable_in_range t i e :
  reachable t ->
  length t = Z.to_nat tlb_size /\
  (t !! i = Some e -> entry_in_range e).
Proof.
  intros Hr. destruct (reachable_range t Hr) as [Ht Hall].
  split; [exact Ht|]. intros He. by apply (Forall_lookup_1 _ _ _ _ Hall He).
Qed.

(** X16. In a reached state [flush(asid)] with an identifier that does not
    fit [asid_bits] bits changes nothing: the comparison is with the stored
    member, which no such identifier equals. *)
Theorem flush_asid_wide_noop a t :
  reachable t ->
  2 ^ asid_bits <= a ->
  flush_asid a t = Some (tt, t).
Proof.
  intros Hr Ha. destruct (reachable_range t Hr) as [Ht Hall].
  rewrite (flush_asid_eq _ _ Ht). do 2 f_equal.
  rewrite <- (list_fmap_id t) at 2.
  apply Forall_fmap_ext_1. eapply Forall_impl; [exact Hall|].
  intros e (_ & He & _). apply reset_if_asid_skip.
  apply Z.eqb_neq. unfold id. lia.
Qed.

End invariants.

(** ** Hits against a reference map *)

Section reference.
Context {P : PARAM}.
Hypothesis WF : wf_param.

Lemma coherent_replicate n m : coherent (replicate n entry_default) m.
Proof. intros i e He Hne. by apply lookup_replicate_1 in He as [-> _]. Qed.

Lemma coherent_reset a t m :
  coherent t m ->
  coherent (reset_if_asid a <$> t) (filter (fun kv => kv.1.1.2 <> a) m).
Proof.
  intros Hc i e' He' Hne. rewrite list_lookup_fmap in He'.
  destruct (t !! i) as [e|] eqn:He; [|done]. injection He' as <-.
  destruct (asid e =? a) eqn:Ha.
  - by rewrite (reset_if_asid_hit a e Ha) in Hne.
  - rewrite (reset_if_asid_skip a e Ha) in Hne |- *.
    apply map_lookup_filter_Some_2; [by apply (Hc i)|].
    simpl. by apply Z.eqb_neq.
Qed.

Lemma coherent_insert pdid' asid' va pteb' ppn' t m :
  is_UX va -> placed t -> coherent t m ->
  coherent
    (<[index_of va :=
        entry_of pdid' asid' (Z.shiftr va page_shift) pteb' ppn']> t)
    (<[stored_key pdid' asid' va := stored_payload pteb' ppn']> m).
Proof.
  intros Hva Hpl Hc i e He Hne.
  destruct (decide (i = index_of va)) as [->|Hi].
  - apply list_lookup_insert_Some in He as [(_ & <- & _)|(? & _)]; [|done].
    unfold stored_key, stored_payload. cbn [pdid asid vpn pteb ppn entry_of].
    rewrite (vpn_stored WF va Hva). apply lookup_insert_eq.
  - rewrite list_lookup_insert_ne in He by done.
    rewrite lookup_insert_ne; [by apply (Hc i)|].
    unfold stored_key. intros [= _ _ Hv].
    apply Hi. apply Nat2Z.inj.
    rewrite (index_of_Z WF), Hv. symmetry. by apply (Hpl i).
Qed.

Lemma run_call_coherent c t t' m :
  wf_state t -> placed t -> coherent t m -> call_typed c ->
  run_call c t = Some (tt, t') ->
  wf_state t' /\ placed t' /\ coherent t' (ref_call c m).
Proof.
  intros Ht Hpl Hc Hty Hrun.
  destruct c as [|a|p a va|p a va b n]; cbn [run_call ref_call call_typed] in *.
  - rewrite (flush_eq _ Ht) in Hrun. injection Hrun as <-.
    split; [apply wf_state_replicate|].
    split; [apply placed_replicate | apply coherent_replicate].
  - rewrite (flush_asid_eq _ _ Ht) in Hrun. injection Hrun as <-.
    split; [by apply wf_state_fmap|].
    split; [by apply placed_reset | by apply coherent_reset].
  - destruct (wf_state_lookup WF t va Ht) as [e He].
    unfold bind in Hrun. rewrite (lookup_eq _ _ _ _ _ He) in Hrun.
    by injection Hrun as <-.
  - destruct Hty as (_ & _ & Hva & _).
    rewrite (insert_eq WF _ _ _ _ _ _ Ht) in Hrun. injection Hrun as <-.
    split; [by apply wf_state_insert|].
    split; [by apply placed_insert | by apply coherent_insert].
Qed.

Lemma run_calls_coherent cs : forall t m,
  wf_state t -> placed t -> coherent t m -> Forall call_typed cs ->
  exists t',
    run_calls cs t = Some (tt, t') /\
    wf_state t' /\ coherent t' (foldl (fun m c => ref_call c m) m cs).
Proof.
  induction cs as [|c cs IH]; intros t m Ht Hpl Hc Hty.
  - exists t. by repeat split.
  - apply Forall_cons in Hty as [Hc1 Hcs].
    destruct (run_call_wf WF c t Ht) as (t1 & Hrun & _).
    destruct (run_call_coherent c t t1 m Ht Hpl Hc Hc1 Hrun)
      as (Ht1 & Hpl1 & Hcoh1).
    destruct (IH t1 (ref_call c m) Ht1 Hpl1 Hcoh1 Hcs) as (t' & Hrun' & ?).
    exists t'. split; [|done].
    cbn [run_calls]. unfold bind. by rewrite Hrun.
Qed.

(** X17. The array never answers with a translation other than the last
    one installed.  Any sequence of calls with [UX] arguments, run on the
    constructed array, returns; and in the array it leaves, a lookup that
    hits under a key other than the sentinel's own tags returns an entry
    whose [pteb] and [ppn] are those of the most recent [insert] stored
    under that key with no [flush()], and no [flush(asid)] of the key's
    address space, after it: the entry of the reference map [ref_calls]. *)
Theorem hits_agree_with_reference cs :
  Forall call_typed cs ->
  exists t0 t,
    tagged_tlb = Some t0 /\
    run_calls cs t0 = Some (tt, t) /\
    forall pdid' asid' va i,
      lookup pdid' asid' va t = Some (Some i, t) ->
      sentinel_key pdid' asid' va = false ->
      exists e,
        t !! i = Some e /\
        ref_calls cs !! (pdid', asid', Z.shiftr va page_shift)
          = Some (pteb e, ppn e).
Proof.
  intros Hty.
  destruct (run_calls_coherent cs (replicate (Z.to_nat size) entry_default) ∅)
    as (t & Hrun & Ht & Hcoh); try done.
  { apply wf_state_replicate. }
  { apply placed_replicate. }
  { apply coherent_replicate. }
  exists (replicate (Z.to_nat size) entry_default), t.
  split; [apply tagged_tlb_eq|]. split; [done|].
  intros p a va i Hhit Hkey.
  destruct (lookup_hit_inv WF _ _ _ _ _ Ht Hhit) as (-> & e & He & Hm).
  exists e. split; [done|].
  assert (Hne : e <> entry_default).
  { intros ->. rewrite (matches_default WF) in Hm. congruence. }
  apply matches_true in Hm as (<- & <- & <-).
  by apply (Hcoh (index_of va)).
Qed.

End reference.

(** ** Lookup, insert and flush by address space together *)

Section round_trips.
Context {P : PARAM}.
Hypothesis WF : wf_param.

Lemma entry_of_fields e :
  entry_in_range e ->
  entry_of (pdid e) (asid e) (vpn e) (pteb e) (ppn e) = e.
Proof.
  pose proof (vpn_bits_pos WF).
  intros (Hn & Ha & Hv & Hb & Hp & Hm). destruct WF, e as [n a v b p m].
  cbn [ppn asid vpn pteb pdid pma] in *. unfold entry_of, convert.
  unfold pte_bits in *.
  rewrite !bitfield_fits by lia. rewrite Z.mod_small by lia. by subst m.
Qed.

(** X18. Writing back what a lookup found changes nothing: in a reached
    state, if [lookup(pdid, asid, va)] hits entry [e], then
    [insert(pdid, asid, va, e.pteb, e.ppn)] leaves the array as it is. *)
Theorem reinsert_hit_noop pdid' asid' va t i e :
  reachable t ->
  lookup pdid' asid' va t = Some (Some i, t) ->
  t !! i = Some e ->
  insert pdid' asid' va (pteb e) (ppn e) t = Some (tt, t).
Proof.
  intros Hr Hhit He. destruct (reachable_range WF t Hr) as [Ht Hall].
  destruct (lookup_hit_inv WF _ _ _ _ _ Ht Hhit) as (-> & e' & He' & Hm).
  assert (e' = e) as -> by congruence.
  apply matches_true in Hm as (Hp & Ha & Hv).
  rewrite (insert_eq WF) by done.
  rewrite <- Hp, <- Ha, <- Hv.
  rewrite entry_of_fields by (by apply (Forall_lookup_1 _ _ _ _ Hall He)).
  by rewrite list_insert_id.
Qed.

(** X19. [flush(asid)] compares with the stored, truncated identifier.
    After [insert(pdid, asid, va, ..)], [flush(asid)] with the same
    argument resets the slot when [asid] fits [asid_bits] bits, and leaves
    the inserted entry in place when it does not: such a mapping is only
    flushed under its truncated identifier. *)
Theorem insert_then_flush_asid pdid' asid' va pteb' ppn' t :
  wf_state t -> 0 <= asid' ->
  exists t1 t2,
    insert pdid' asid' va pteb' ppn' t = Some (tt, t1) /\
    flush_asid asid' t1 = Some (tt, t2) /\
    t2 !! index_of va =
      Some (if asid' <? 2 ^ asid_bits then entry_default
            else entry_of pdid' asid' (Z.shiftr va page_shift) pteb' ppn') /\
    exists t3,
      flush_asid (asid' mod 2 ^ asid_bits) t1 = Some (tt, t3) /\
      t3 !! index_of va = Some entry_default.
Proof.
  intros Ht Ha.
  rewrite (insert_eq WF) by done.
  remember (entry_of pdid' asid' (Z.shiftr va page_shift) pteb' ppn')
    as e eqn:Ee.
  assert (Hasid : asid e = asid' mod 2 ^ asid_bits).
  { destruct WF. subst e. cbn [asid entry_of]. apply bitfield_mod. lia. }
  assert (He : <[index_of va := e]> t !! index_of va = Some e).
  { apply list_lookup_insert_eq. rewrite Ht. by apply index_of_lt. }
  exists (<[index_of va := e]> t).
  eexists. split; [done|].
  split; [apply flush_asid_eq; by apply wf_state_insert|].
  split.
  - rewrite list_lookup_fmap, He. simpl. f_equal.
    destruct WF.
    destruct (Z.ltb_spec asid' (2 ^ asid_bits)) as [Hlt|Hge].
    + apply reset_if_asid_hit. rewrite Hasid. apply Z.eqb_eq.
      apply Z.mod_small. lia.
    + apply reset_if_asid_skip. rewrite Hasid. apply Z.eqb_neq.
      pose proof (Z.mod_pos_bound asid' (2 ^ asid_bits)).
      assert (0 < 2 ^ asid_bits) by (apply Z.pow_pos_nonneg; lia). lia.
  - eexists. split; [apply flush_asid_eq; by apply wf_state_insert|].
    rewrite list_lookup_fmap, He. simpl. f_equal.
    apply reset_if_asid_hit. rewrite Hasid. apply Z.eqb_refl.
Qed.

End round_trips.

(** ** The properties above on the four-slot 32-bit instance *)

Section four_slots_rv32.
Local Existing Instance rv32_tlb4.

(** The fresh array, and the array holding one mapping in slot 1. *)
Local Abbreviation fresh := (replicate 4 entry_default).
Local Abbreviation one_mapping := (<[1%nat := entry_of 1 7 1 7 0x55]> fresh).

Ltac sample_reachable :=
  apply reachable_call with (t := fresh) (c := call_insert 1 7 0x1000 7 0x55);
  [ apply reachable_new; reflexivity
  | repeat split; by_evaluation
  | reflexivity ].

Lemma tagged_tlb_fresh_witness :
  exists t0,
    tagged_tlb = Some t0 /\
    length t0 = 4%nat /\
    forall i e, t0 !! i = Some e ->
      ppn e = 2 ^ 22 - 1 /\ asid e = 2 ^ 10 - 1 /\
      vpn e = 2 ^ 20 - 1 /\ pteb e = 0 /\ pdid e = 0 /\ pma e = 0.
Proof. apply (tagged_tlb_fresh (P := rv32_tlb4)). param_ok. Defined.

Lemma flush_restores_fresh_witness :
  exists t0,
    tagged_tlb = Some t0 /\ flush one_mapping = Some (tt, t0) /\
    flush t0 = Some (tt, t0).
Proof. apply (flush_restores_fresh (P := rv32_tlb4)). reflexivity. Defined.

Lemma flush_asid_idempotent_witness :
  exists t1,
    flush_asid 7 one_mapping = Some (tt, t1) /\
    flush_asid 7 t1 = Some (tt, t1).
Proof. apply (flush_asid_idempotent (P := rv32_tlb4)). reflexivity. Defined.

Lemma flush_asid_commute_witness :
  exists t',
    bind (flush_asid 7) (fun _ => flush_asid 1023) one_mapping
      = Some (tt, t') /\
    bind (flush_asid 1023) (fun _ => flush_asid 7) one_mapping
      = Some (tt, t').
Proof. apply (flush_asid_commute (P := rv32_tlb4)). reflexivity. Defined.

Lemma flush_asid_fresh_witness : flush_asid 1023 fresh = Some (tt, fresh).
Proof. apply (flush_asid_fresh (P := rv32_tlb4)). reflexivity. Defined.

Lemma calls_stay_in_bounds_witness :
  (exists t',
     run_call (call_insert 1 7 0xFFFFFFFF 7 0x55) one_mapping = Some (tt, t')
     /\ wf_state t') /\
  (forall pdid' asid' va i t',
     lookup pdid' asid' va one_mapping = Some (Some i, t') ->
     (i < length one_mapping)%nat).
Proof.
  apply (calls_stay_in_bounds (P := rv32_tlb4)); [param_ok | reflexivity].
Defined.

Lemma index_of_mod_witness :
  Z.of_nat (index_of 0x5abc) = (0x5abc / 2 ^ 12) mod 4 /\
  0 <= Z.of_nat (index_of 0x5abc) < 4.
Proof. apply (index_of_mod (P := rv32_tlb4)). param_ok. Defined.

Lemma page_offset_ignored_witness :
  lookup 1 7 (1 * 2 ^ 12 + 0xabc) one_mapping =
    lookup 1 7 (1 * 2 ^ 12) one_mapping /\
  insert 1 7 (1 * 2 ^ 12 + 0xabc) 3 0x99 one_mapping =
    insert 1 7 (1 * 2 ^ 12) 3 0x99 one_mapping.
Proof.
  apply (page_offset_ignored (P := rv32_tlb4)); [param_ok | by_evaluation].
Defined.

Lemma insert_overwrites_witness :
  bind (insert 1 7 0x1000 7 0x55) (fun _ => insert 2 9 0x5000 3 0x99) fresh
  = insert 2 9 0x5000 3 0x99 fresh /\
  exists t', insert 2 9 0x5000 3 0x99 fresh = Some (tt, t').
Proof.
  apply (insert_overwrites (P := rv32_tlb4)); [param_ok | reflexivity ..].
Defined.

Lemma insert_commute_witness :
  exists t',
    bind (insert 1 7 0x1000 7 0x55) (fun _ => insert 2 9 0x2000 3 0x99) fresh
      = Some (tt, t') /\
    bind (insert 2 9 0x2000 3 0x99) (fun _ => insert 1 7 0x1000 7 0x55) fresh
      = Some (tt, t').
Proof.
  apply (insert_commute (P := rv32_tlb4));
    [param_ok | reflexivity | by_evaluation].
Defined.


Lemma hit_unique_witness :
  1 = 1 /\ 7 = 7 /\
  Z.shiftr 0x1000 page_shift = Z.shiftr 0x1abc page_shift.
Proof.
  apply (hit_unique (P := rv32_tlb4) ltac:(param_ok)
           1 7 0x1000 1 7 0x1abc one_mapping 1%nat);
    reflexivity.
Defined.

Lemma lookup_after_insert_witness :
  exists t1,
    insert 1 (1024 + 7) 0x1000 7 0x55 fresh = Some (tt, t1) /\
    lookup 1 7 0x1abc t1 = Some (Some 1%nat, t1).
Proof.
  apply (lookup_after_insert (P := rv32_tlb4));
    [param_ok | reflexivity | by_evaluation | reflexivity].
Defined.

Lemma insert_keeps_other_lookups_witness :
  exists t1,
    insert 2 9 0x2000 3 0x99 one_mapping = Some (tt, t1) /\
    lookup 1 7 0x1000 t1 = Some (Some 1%nat, t1).
Proof.
  apply (insert_keeps_other_lookups (P := rv32_tlb4));
    [param_ok | reflexivity | by_evaluation | reflexivity].
Defined.

Lemma reachable_in_range_witness :
  length one_mapping = Z.to_nat tlb_size /\
  (one_mapping !! 1%nat = Some (entry_of 1 7 1 7 0x55) ->
   entry_in_range (entry_of 1 7 1 7 0x55)).
Proof.
  apply (reachable_in_range (P := rv32_tlb4)); [param_ok | sample_reachable].
Defined.

Lemma flush_asid_wide_noop_witness :
  flush_asid 1024 one_mapping = Some (tt, one_mapping).
Proof.
  apply (flush_asid_wide_noop (P := rv32_tlb4));
    [param_ok | sample_reachable | by_evaluation].
Defined.

Lemma hits_agree_with_reference_witness :
  let cs := [call_insert 1 7 0x1000 7 0x55; call_insert 2 9 0x2000 1 0x66;
             call_insert 1 7 0x5000 3 0x99; call_flush_asid 9;
             call_lookup 1 7 0x5000] in
  exists t0 t,
    tagged_tlb = Some t0 /\
    run_calls cs t0 = Some (tt, t) /\
    forall pdid' asid' va i,
      lookup pdid' asid' va t = Some (Some i, t) ->
      sentinel_key pdid' asid' va = false ->
      exists e,
        t !! i = Some e /\
        ref_calls cs !! (pdid', asid', Z.shiftr va page_shift)
          = Some (pteb e, ppn e).
Proof.
  apply (hits_agree_with_reference (P := rv32_tlb4)); [param_ok|].
  repeat (constructor; [repeat split; by_evaluation|]). constructor.
Defined.

Lemma reinsert_hit_noop_witness :
  insert 1 7 0x1000 (pteb (entry_of 1 7 1 7 0x55)) (ppn (entry_of 1 7 1 7 0x55))
    one_mapping = Some (tt, one_mapping).
Proof.
  apply (reinsert_hit_noop (P := rv32_tlb4) ltac:(param_ok)
           1 7 0x1000 one_mapping 1%nat);
    [sample_reachable | reflexivity | reflexivity].
Defined.

Lemma insert_then_flush_asid_witness :
  exists t1 t2,
    insert 1 (1024 + 7) 0x1000 7 0x55 fresh = Some (tt, t1) /\
    flush_asid (1024 + 7) t1 = Some (tt, t2) /\
    t2 !! 1%nat = Some (entry_of 1 7 1 7 0x55) /\
    exists t3,
      flush_asid 7 t1 = Some (tt, t3) /\
      t3 !! 1%nat = Some entry_default.
Proof.
  apply (insert_then_flush_asid (P := rv32_tlb4));
    [param_ok | reflexivity | by_evaluation].
Defined.

(** The reference map of that sequence: the first mapping was overwritten
    in the array but is still the last one installed under its key, the
    second was forgotten by [flush(9)]. *)
Example ref_calls_sample :
  let cs := [call_insert 1 7 0x1000 7 0x55; call_insert 2 9 0x2000 1 0x66;
             call_insert 1 7 0x5000 3 0x99; call_flush_asid 9;
             call_lookup 1 7 0x5000] in
  ref_calls cs !! (1, 7, 5) = Some (3, 0x99) /\
  ref_calls cs !! (1, 7, 1) = Some (7, 0x55) /\
  ref_calls cs !! (2, 9, 2) = None.
Proof. repeat split; vm_compute; reflexivity. Qed.

End four_slots_rv32.
